(** * Verification of [src/wasm/mandelbrot/coep_server.py]

    The script subclasses CPython's [http.server.SimpleHTTPRequestHandler]
    (overriding only [end_headers]) and runs it under a plain
    [socketserver.TCPServer], configured by [argparse].  The behaviour the
    specification talks about is therefore the behaviour of those standard
    library paths as the script wires them; they are embedded below function
    by function, after CPython's [http/server.py], [socketserver.py],
    [posixpath.py] and [urllib/parse.py].

    Strings are [Stdlib.Strings.String.string]: characters are bytes (the
    request line is decoded as ISO-8859-1 by the handler, so every character
    is one byte).  Percent-decoding is modelled byte-wise. *)

From Stdlib Require Import Bool NArith ZArith Lia List Ascii String DecimalString.
Import ListNotations.
Open Scope string_scope.
Open Scope nat_scope.

Infix "=s?" := String.eqb (at level 70) : string_scope.

(** ** Python string helpers *)

Definition is_ws (c : ascii) : bool :=
  (* [str.isspace] on one ISO-8859-1 character: \t \n \v \f \r, \x1c-\x1f, space, \x85, \xa0 *)
  let n := N_of_ascii c in
  (((9 <=? n) && (n <=? 13)) || ((28 <=? n) && (n <=? 32)) || (n =? 133) || (n =? 160))%N.

(** [s.split(c)]: always at least one piece. *)
Fixpoint split_on (c : ascii) (s : string) : list string :=
  match s with
  | EmptyString => [EmptyString]
  | String x r =>
      let rest := split_on c r in
      if Ascii.eqb x c then EmptyString :: rest
      else match rest with
           | h :: t => String x h :: t
           | [] => [String x EmptyString]
           end
  end.

(** [s.split(c, 1)[0]]: the part before the first [c]. *)
Fixpoint before (c : ascii) (s : string) : string :=
  match s with
  | EmptyString => EmptyString
  | String x r => if Ascii.eqb x c then EmptyString else String x (before c r)
  end.

(** [sep.join(l)] *)
Fixpoint join (sep : string) (l : list string) : string :=
  match l with
  | [] => EmptyString
  | [x] => x
  | x :: r => x ++ sep ++ join sep r
  end.

(** [c in s] *)
Fixpoint has_char (c : ascii) (s : string) : bool :=
  match s with
  | EmptyString => false
  | String x r => Ascii.eqb x c || has_char c r
  end.

(** [s.endswith(c)] for a one-character suffix. *)
Fixpoint ends_with (c : ascii) (s : string) : bool :=
  match s with
  | EmptyString => false
  | String x EmptyString => Ascii.eqb x c
  | String _ r => ends_with c r
  end.

(** [s.startswith(p)] *)
Definition starts_with (p s : string) : bool := String.prefix p s.

(** [s.rstrip()] (whitespace) and [s.rstrip(chars)] *)
Fixpoint rstrip_by (f : ascii -> bool) (s : string) : string :=
  match s with
  | EmptyString => EmptyString
  | String c r =>
      let r' := rstrip_by f r in
      match r' with
      | EmptyString => if f c then EmptyString else String c EmptyString
      | _ => String c r'
      end
  end.

Definition rstrip (s : string) : string := rstrip_by is_ws s.

(** [s.lstrip(c)] *)
Fixpoint lstrip_char (c : ascii) (s : string) : string :=
  match s with
  | String x r => if Ascii.eqb x c then lstrip_char c r else s
  | EmptyString => EmptyString
  end.

(** [s.split()] with no separator: runs of whitespace separate, empty
    pieces are dropped. *)
Fixpoint split_ws_acc (cur : string) (s : string) : list string :=
  match s with
  | EmptyString => match cur with EmptyString => [] | _ => [cur] end
  | String c r =>
      if is_ws c then
        match cur with
        | EmptyString => split_ws_acc EmptyString r
        | _ => cur :: split_ws_acc EmptyString r
        end
      else split_ws_acc (cur ++ String c EmptyString) r
  end.

Definition split_ws (s : string) : list string := split_ws_acc EmptyString s.

(** ASCII lower-casing, as [str.lower] does on ASCII letters. *)
Definition lower_char (c : ascii) : ascii :=
  let n := N_of_ascii c in
  if ((65 <=? n) && (n <=? 90))%N then ascii_of_N (n + 32) else c.

Fixpoint lower (s : string) : string :=
  match s with
  | EmptyString => EmptyString
  | String c r => String (lower_char c) (lower r)
  end.

(** ** [urllib.parse.unquote] (byte-wise percent-decoding) *)

Definition hexval (c : ascii) : option N :=
  let n := N_of_ascii c in
  if ((48 <=? n) && (n <=? 57))%N then Some (n - 48)%N
  else if ((65 <=? n) && (n <=? 70))%N then Some (n - 55)%N
  else if ((97 <=? n) && (n <=? 102))%N then Some (n - 87)%N
  else None.

(** [unquote_to_bytes]: a [%] followed by two hex digits is the byte they
    denote; any other [%] stays literal. *)
Fixpoint unquote (s : string) : string :=
  match s with
  | EmptyString => EmptyString
  | String c t =>
      if Ascii.eqb c "%" then
        match t with
        | String h (String l r) =>
            match hexval h, hexval l with
            | Some a, Some b => String (ascii_of_N (a * 16 + b)) (unquote r)
            | _, _ => String c (unquote t)
            end
        | _ => String c (unquote t)
        end
      else String c (unquote t)
  end.

(** ** [posixpath.normpath] *)

Definition normpath_step (initial_slashes : nat) (new_comps : list string)
    (comp : string) : list string :=
  (* new_comps is kept reversed: its head is Python's new_comps[-1] *)
  if (comp =s? "") || (comp =s? ".") then new_comps
  else if negb (comp =s? "..")
          || ((initial_slashes =? 0) && match new_comps with [] => true | _ => false end)
          || match new_comps with h :: _ => h =s? ".." | [] => false end
       then comp :: new_comps
       else match new_comps with
            | _ :: t => t
            | [] => []
            end.

Definition normpath (path : string) : string :=
  if path =s? "" then "." else
  let initial_slashes :=
    if starts_with "/" path then
      if starts_with "//" path && negb (starts_with "///" path) then 2%nat else 1%nat
    else 0%nat in
  let comps := split_on "/" path in
  let new_comps := rev (fold_left (normpath_step initial_slashes) comps []) in
  let p := join "/" new_comps in
  let p := (if (initial_slashes =? 0) then "" else
            if (initial_slashes =? 1) then "/" else "//") ++ p in
  if p =s? "" then "." else p.

(** ** File-system paths

    A POSIX path built by [os.path.join] from the served directory is kept
    as its list of components plus whether a ['/'] was appended at the end. *)

Record ospath := OsPath { comps : list string; trail : bool }.

(** [os.path.dirname(word)] is non-empty exactly when [word] has a ['/']. *)
Definition dirname_nonempty (word : string) : bool := has_char "/" word.

(** [SimpleHTTPRequestHandler.translate_path] *)
Definition translate_path (directory : list string) (path : string) : ospath :=
  let path := before "?" path in
  let path := before "#" path in
  let trailing_slash := ends_with "/" (rstrip path) in
  let path := unquote path in
  let path := normpath path in
  let words := filter (fun w => negb (w =s? "")) (split_on "/" path) in
  let words := filter (fun w => negb (dirname_nonempty w || (w =s? ".") || (w =s? "..")))
                      words in
  OsPath (directory ++ words) trailing_slash.

(** [str(n)] *)
Definition str_Z (z : Z) : string := NilEmpty.string_of_int (Z.to_int z).
Definition str_nat (n : nat) : string := str_Z (Z.of_nat n).

(** ** The file system under the process

    Absolute paths are lists of components; a directory may be listable or
    not, a file readable or not, with its bytes and its modification time
    (whole seconds since the epoch).  Symbolic links are not modelled. *)

Inductive entry :=
| File (readable : bool) (content : list Byte.byte) (mtime : Z)
| Dir (listable : bool).

Definition fsys := list (list string * entry).

Fixpoint path_eqb (p q : list string) : bool :=
  match p, q with
  | [], [] => true
  | x :: p', y :: q' => (x =s? y) && path_eqb p' q'
  | _, _ => false
  end.

Definition fs_lookup (fs : fsys) (p : list string) : option entry :=
  match find (fun e => path_eqb (fst e) p) fs with
  | Some (_, e) => Some e
  | None => None
  end.

(** [os.path.isdir] / [os.path.isfile] *)
Definition os_isdir (fs : fsys) (p : ospath) : bool :=
  match fs_lookup fs (comps p) with Some (Dir _) => true | _ => false end.

Definition os_isfile (fs : fsys) (p : ospath) : bool :=
  match fs_lookup fs (comps p) with Some (File _ _ _) => true | _ => false end.

(** [open(path, 'rb')] followed by [os.fstat]: the bytes and the mtime, or
    [None] for the [OSError] cases (missing, unreadable, a directory, or a
    regular file named with a trailing ['/'], which POSIX rejects). *)
Definition os_open (fs : fsys) (p : ospath) : option (list Byte.byte * Z) :=
  match fs_lookup fs (comps p) with
  | Some (File true c m) => if trail p then None else Some (c, m)
  | _ => None
  end.

(** [os.listdir]: the names of the direct children of a listable directory. *)
Definition os_listdir (fs : fsys) (p : ospath) : option (list string) :=
  match fs_lookup fs (comps p) with
  | Some (Dir true) =>
      Some (flat_map (fun e =>
              let q := fst e in
              if (List.length q =? S (List.length (comps p)))
                 && path_eqb (firstn (List.length (comps p)) q) (comps p)
              then match last q "" with n => [n] end
              else []) fs)
  | _ => None
  end.

(** [os.path.join(path, name)] *)
Definition os_join (p : ospath) (name : string) : ospath :=
  OsPath (comps p ++ [name]) false.

(** ** HTTP dates ([email.utils.formatdate(usegmt=True)]) *)

Section Dates.
Local Open Scope Z_scope.

(** Days since 1970-01-01 to the civil date, proleptic Gregorian. *)
Definition civil_from_days (z : Z) : Z * Z * Z :=
  let z := z + 719468 in
  let era := Z.div z 146097 in
  let doe := z - era * 146097 in
  let yoe := Z.div (doe - Z.div doe 1460 + Z.div doe 36524 - Z.div doe 146096) 365 in
  let y := yoe + era * 400 in
  let doy := doe - (365 * yoe + Z.div yoe 4 - Z.div yoe 100) in
  let mp := Z.div (5 * doy + 2) 153 in
  let d := doy - Z.div (153 * mp + 2) 5 + 1 in
  let m := if mp <? 10 then mp + 3 else mp - 9 in
  ((if m <=? 2 then y + 1 else y), m, d).

Definition days_from_civil (y m d : Z) : Z :=
  let y := if m <=? 2 then y - 1 else y in
  let era := Z.div y 400 in
  let yoe := y - era * 400 in
  let mp := if m >? 2 then m - 3 else m + 9 in
  let doy := Z.div (153 * mp + 2) 5 + d - 1 in
  let doe := yoe * 365 + Z.div yoe 4 - Z.div yoe 100 + doy in
  era * 146097 + doe - 719468.

Definition month_names := ["Jan"; "Feb"; "Mar"; "Apr"; "May"; "Jun";
                           "Jul"; "Aug"; "Sep"; "Oct"; "Nov"; "Dec"].
Definition day_names := ["Mon"; "Tue"; "Wed"; "Thu"; "Fri"; "Sat"; "Sun"].

Definition pad2 (z : Z) : string := if z <? 10 then "0" ++ str_Z z else str_Z z.

(** [BaseHTTPRequestHandler.date_time_string(timestamp)] *)
Definition date_time_string (t : Z) : string :=
  let days := Z.div t 86400 in
  let secs := Z.modulo t 86400 in
  let '(y, m, d) := civil_from_days days in
  let wd := Z.modulo (days + 3) 7 in
  nth (Z.to_nat wd) day_names "" ++ ", " ++ pad2 d ++ " "
  ++ nth (Z.to_nat (m - 1)) month_names "" ++ " " ++ str_Z y ++ " "
  ++ pad2 (Z.div secs 3600) ++ ":" ++ pad2 (Z.modulo (Z.div secs 60) 60) ++ ":"
  ++ pad2 (Z.modulo secs 60) ++ " GMT".

End Dates.

(** ** The wire

    What a handler writes to its socket, item by item: the status line, a
    header line, the blank line closing the header block, and body bytes. *)

Inductive wire :=
| WStatus (version : string) (code : nat) (message : string)
| WHeader (keyword value : string)
| WEnd
| WBody (bytes : list Byte.byte).

(** ** Requests and the handler's environment *)

Record request := Request {
  raw_requestline : string;               (* the first line, with its CRLF *)
  req_headers : list (string * string)    (* the parsed header block *)
}.

Record henv := HEnv {
  directory : list string;   (* [self.directory], [os.getcwd()] by default *)
  files : fsys;
  now : Z;                   (* [time.time()] when the response is built *)
  req : request
}.

(** The mutable attributes of a handler instance. *)
Record hstate := HState {
  request_version : string;
  command : string;
  path : string;
  headers_buffer : list wire;
  wfile : list wire;
  close_connection : bool
}.

Definition init_hstate : hstate := HState "HTTP/0.9" "" "" [] [] true.

(** A state monad over the handler instance. *)
Definition M (A : Type) := hstate -> A * hstate.
Definition ret {A} (a : A) : M A := fun s => (a, s).
Definition mbind {A B} (m : M A) (k : A -> M B) : M B :=
  fun s => let (a, s') := m s in k a s'.
Notation "x <- m ;; k" := (mbind m (fun x => k)) (at level 61, m at next level, right associativity).
Notation "m ;; k" := (mbind m (fun _ => k)) (at level 61, right associativity).
Definition get : M hstate := fun s => (s, s).
Definition put (s : hstate) : M unit := fun _ => (tt, s).
Definition modify (f : hstate -> hstate) : M unit := fun s => (tt, f s).

Definition set_request_version v : M unit :=
  modify (fun s => HState v (command s) (path s) (headers_buffer s) (wfile s) (close_connection s)).
Definition set_command c : M unit :=
  modify (fun s => HState (request_version s) c (path s) (headers_buffer s) (wfile s) (close_connection s)).
Definition set_path p : M unit :=
  modify (fun s => HState (request_version s) (command s) p (headers_buffer s) (wfile s) (close_connection s)).
Definition set_close b : M unit :=
  modify (fun s => HState (request_version s) (command s) (path s) (headers_buffer s) (wfile s) b).
Definition buffer_append (w : wire) : M unit :=
  modify (fun s => HState (request_version s) (command s) (path s) (headers_buffer s ++ [w]) (wfile s) (close_connection s)).
Definition wfile_write (ws : list wire) : M unit :=
  modify (fun s => HState (request_version s) (command s) (path s) (headers_buffer s) (wfile s ++ ws) (close_connection s)).

Definition when (b : bool) (m : M unit) : M unit := if b then m else ret tt.

(** The combinators unfold as soon as they meet a state. *)
Arguments ret {A} a _ /.
Arguments mbind {A B} m k _ /.
Arguments get _ /.
Arguments put s _ /.
Arguments modify f _ /.
Arguments when b m _ /.
Arguments set_request_version v _ /.
Arguments set_command c _ /.
Arguments set_path p _ /.
Arguments set_close b _ /.
Arguments buffer_append w _ /.
Arguments wfile_write ws _ /.

(** [self.responses]: the reason phrase and the explanation of a status. *)
Definition responses (code : nat) : option (string * string) :=
  match code with
  | 200 => Some ("OK", "Request fulfilled, document follows")
  | 301 => Some ("Moved Permanently", "Object moved permanently -- see URI list")
  | 304 => Some ("Not Modified", "Document has not changed since given time")
  | 400 => Some ("Bad Request", "Bad request syntax or unsupported method")
  | 404 => Some ("Not Found", "Nothing matches the given URI")
  | 414 => Some ("Request-URI Too Long", "URI is too long.")
  | 501 => Some ("Not Implemented", "Server does not support this operation")
  | 505 => Some ("HTTP Version Not Supported", "Cannot fulfill request.")
  | _ => None
  end.

Definition protocol_version := "HTTP/1.0".
Definition version_string := "SimpleHTTP/0.6 Python/3".

(** [BaseHTTPRequestHandler.send_response_only] *)
Definition send_response_only (code : nat) (message : option string) : M unit :=
  s <- get ;;
  when (negb (request_version s =s? "HTTP/0.9"))
    (let msg := match message with
                | Some m => m
                | None => match responses code with Some (m, _) => m | None => "" end
                end in
     buffer_append (WStatus protocol_version code msg)).

(** [BaseHTTPRequestHandler.send_header] *)
Definition send_header (keyword value : string) : M unit :=
  s <- get ;;
  when (negb (request_version s =s? "HTTP/0.9")) (buffer_append (WHeader keyword value)) ;;
  when (lower keyword =s? "connection")
    (if lower value =s? "close" then set_close true
     else if lower value =s? "keep-alive" then set_close false
     else ret tt).

(** [BaseHTTPRequestHandler.flush_headers] *)
Definition flush_headers : M unit :=
  s <- get ;;
  wfile_write (headers_buffer s) ;;
  modify (fun s => HState (request_version s) (command s) (path s) [] (wfile s) (close_connection s)).

(** [BaseHTTPRequestHandler.end_headers] *)
Definition base_end_headers : M unit :=
  s <- get ;;
  when (negb (request_version s =s? "HTTP/0.9")) (buffer_append WEnd ;; flush_headers).

(** [COEPHandler.end_headers], the script's override (lines 7-10). *)
Definition end_headers : M unit :=
  send_header "Cross-Origin-Opener-Policy" "same-origin" ;;
  send_header "Cross-Origin-Embedder-Policy" "require-corp" ;;
  base_end_headers.

(** [BaseHTTPRequestHandler.send_response] *)
Definition send_response (e : henv) (code : nat) (message : option string) : M unit :=
  send_response_only code message ;;
  send_header "Server" version_string ;;
  send_header "Date" (date_time_string (now e)).

(** A double quote character, and [q s] the string [s] between two. *)
Definition dq : string := String "034" EmptyString.
Definition q (s : string) : string := dq ++ s ++ dq.

(** [BaseHTTPRequestHandler.error_message_format], with its fields filled. *)
Definition error_body (code : nat) (message explain : string) : string :=
  "<!DOCTYPE HTML>" ++ String "010" ""
  ++ "<html lang=" ++ q "en" ++ "><head><meta charset=" ++ q "utf-8"
  ++ "><title>Error response</title></head>"
  ++ "<body><h1>Error response</h1><p>Error code: " ++ str_nat code
  ++ "</p><p>Message: " ++ message ++ ".</p><p>Error code explanation: "
  ++ str_nat code ++ " - " ++ explain ++ ".</p></body></html>" ++ String "010" "".

(** The statuses [send_error] gives a body: RFC 7230 3.3, RFC 7231 6.3.6. *)
Definition error_has_body (code : nat) : bool :=
  (200 <=? code) && negb (existsb (Nat.eqb code) [204; 205; 304]).

(** [BaseHTTPRequestHandler.send_error] *)
Definition send_error (e : henv) (code : nat) (message : option string) : M unit :=
  let '(shortmsg, longmsg) :=
    match responses code with Some p => p | None => ("???", "???") end in
  let message := match message with Some m => m | None => shortmsg end in
  send_response e code (Some message) ;;
  send_header "Connection" "close" ;;
  let has_body := error_has_body code in
  let body := list_byte_of_string (error_body code message longmsg) in
  when has_body
    (send_header "Content-Type" "text/html;charset=utf-8" ;;
     send_header "Content-Length" (str_nat (List.length body))) ;;
  end_headers ;;
  s <- get ;;
  when (negb (command s =s? "HEAD") && has_body) (wfile_write [WBody body]).

(** ** Request parsing ([BaseHTTPRequestHandler.parse_request]) *)

Definition is_crlf (c : ascii) : bool := Ascii.eqb c "013" || Ascii.eqb c "010".

(** [s.split(c, 1)[1]] when [c] occurs in [s]. *)
Fixpoint after (c : ascii) (s : string) : option string :=
  match s with
  | EmptyString => None
  | String x r => if Ascii.eqb x c then Some r else after c r
  end.

Definition is_digit (c : ascii) : bool :=
  let n := N_of_ascii c in ((48 <=? n) && (n <=? 57))%N.

Fixpoint all_digits (s : string) : bool :=
  match s with
  | EmptyString => true
  | String c r => is_digit c && all_digits r
  end.

(** [str.isdigit]: non-empty and all digits. *)
Definition isdigit (s : string) : bool :=
  match s with EmptyString => false | _ => all_digits s end.

Fixpoint digits_value (acc : N) (s : string) : N :=
  match s with
  | EmptyString => acc
  | String c r => digits_value (acc * 10 + (N_of_ascii c - 48))%N r
  end.

Definition repr (s : string) : string := "'" ++ s ++ "'".

(** The [try] block of [parse_request] that reads the version word:
    [None] where it raises [ValueError]/[IndexError]. *)
Definition parse_version (version : string) : option (N * N) :=
  if negb (starts_with "HTTP/" version) then None else
  match after "/" version with
  | None => None
  | Some base_version_number =>
      match split_on "." base_version_number with
      | [a; b] =>
          if negb (isdigit a && isdigit b) then None
          else if (10 <? String.length a) || (10 <? String.length b) then None
          else Some (digits_value 0%N a, digits_value 0%N b)
      | _ => None
      end
  end.

(** Case-insensitive lookup in [self.headers] ([email.message.Message]). *)
Definition header_get (hs : list (string * string)) (name : string) : option string :=
  match find (fun kv => lower (fst kv) =s? lower name) hs with
  | Some (_, v) => Some v
  | None => None
  end.

Definition parse_request (e : henv) : M bool :=
  set_command "" ;;
  set_request_version "HTTP/0.9" ;;
  set_close true ;;
  let requestline := rstrip_by is_crlf (raw_requestline (req e)) in
  let words := split_ws requestline in
  let n := List.length words in
  if n =? 0 then ret false else
  ok <- (if 3 <=? n then
           let version := last words "" in
           match parse_version version with
           | None =>
               send_error e 400 (Some ("Bad request version (" ++ repr version ++ ")")) ;;
               ret false
           | Some (major, _) =>
               (* version_number >= (1, 1) only matters when
                  protocol_version >= "HTTP/1.1"; it is "HTTP/1.0" here *)
               if (2 <=? major)%N then
                 send_error e 505 (Some ("Invalid HTTP version (" ++
                   match after "/" version with Some b => b | None => "" end ++ ")")) ;;
                 ret false
               else set_request_version version ;; ret true
           end
         else ret true) ;;
  if negb ok then ret false else
  if negb ((2 <=? n) && (n <=? 3)) then
    send_error e 400 (Some ("Bad request syntax (" ++ repr requestline ++ ")")) ;; ret false
  else
  let cmd := nth 0 words "" in
  let p := nth 1 words "" in
  ok2 <- (if n =? 2 then
            set_close true ;;
            if negb (cmd =s? "GET") then
              send_error e 400 (Some ("Bad HTTP/0.9 request type (" ++ repr cmd ++ ")")) ;;
              ret false
            else ret true
          else ret true) ;;
  if negb ok2 then ret false else
  set_command cmd ;;
  set_path p ;;
  (* gh-87389: a path starting with '//' is collapsed to a single '/' *)
  when (starts_with "//" p) (set_path ("/" ++ lstrip_char "/" p)) ;;
  (* the Connection and Expect headers change nothing under
     protocol_version "HTTP/1.0" except an explicit close *)
  when (match header_get (req_headers (req e)) "Connection" with
        | Some v => lower v =s? "close" | None => false end) (set_close true) ;;
  ret true.

(** ** [SimpleHTTPRequestHandler.send_head] and its helpers *)

(** [email.utils.parsedate_to_datetime] on the value of [If-Modified-Since],
    for the IMF-fixdate form browsers send ([Sun, 06 Nov 1994 08:49:37 GMT]):
    [Some (Some t)] is an aware UTC time of [t] seconds since the epoch
    (Python also treats a naive [-0000] time as UTC), [Some None] an aware time
    in another zone (the comparison is skipped), [None] a value the model
    does not parse (Python ignores ill-formed ones; it also accepts further
    RFC 2822 spellings the model leaves out). *)
Definition month_number (m : string) : option Z :=
  let fix go (l : list string) (i : Z) :=
    match l with
    | [] => None
    | x :: r => if lower x =s? lower m then Some i else go r (i + 1)%Z
    end in
  go month_names 1%Z.

Definition parse_http_date (v : string) : option (option Z) :=
  let ws := split_ws v in
  let ws := match ws with
            | w :: r => if ends_with "," w then r else ws
            | [] => [] end in
  match ws with
  | [d; mon; y; hms; tz] =>
      match split_on ":" hms, month_number mon with
      | [hh; mm; ss], Some m =>
          if isdigit d && isdigit y && isdigit hh && isdigit mm && isdigit ss then
            let t := (days_from_civil (Z.of_N (digits_value 0%N y)) m
                        (Z.of_N (digits_value 0%N d)) * 86400
                      + Z.of_N (digits_value 0%N hh) * 3600
                      + Z.of_N (digits_value 0%N mm) * 60
                      + Z.of_N (digits_value 0%N ss))%Z in
            if existsb (String.eqb tz) ["GMT"; "UT"; "UTC"; "Z"; "+0000"; "-0000"]
            then Some (Some t) else Some None
          else None
      | _, _ => None
      end
  | _ => None
  end.

(** The [If-Modified-Since] test of [send_head]: [True] answers 304. *)
Definition not_modified (e : henv) (mtime : Z) : bool :=
  let hs := req_headers (req e) in
  match header_get hs "If-Modified-Since", header_get hs "If-None-Match" with
  | Some v, None =>
      match parse_http_date v with
      | Some (Some ims) => (mtime <=? ims)%Z
      | _ => false
      end
  | _, _ => false
  end.

(** [posixpath.splitext] on the last component, then the extension table
    ([extensions_map], then [mimetypes]; a few common entries). *)
Definition extension (name : string) : string :=
  let fix go (s : string) (seen_nondot : bool) (cur : option string) :=
    match s with
    | EmptyString => cur
    | String c r =>
        if Ascii.eqb c "." then go r seen_nondot (if seen_nondot then Some (String c r) else cur)
        else go r true cur
    end in
  match go name false None with Some x => x | None => "" end.

Definition guess_type (p : ospath) : string :=
  let ext := lower (extension (last (comps p) "")) in
  match ext with
  | ".html" | ".htm" => "text/html"
  | ".js" | ".mjs" => "text/javascript"
  | ".css" => "text/css"
  | ".json" => "application/json"
  | ".wasm" => "application/wasm"
  | ".txt" => "text/plain"
  | ".png" => "image/png"
  | ".svg" => "image/svg+xml"
  | ".gz" => "application/gzip"
  | _ => "application/octet-stream"
  end.

(** [urllib.parse.urlsplit] of a request path without scheme or netloc:
    the path, the query and the fragment. *)
Definition urlsplit (u : string) : string * string * string :=
  let frag := match after "#" u with Some f => f | None => "" end in
  let u := before "#" u in
  let query := match after "?" u with Some q => q | None => "" end in
  (before "?" u, query, frag).

Definition urlunsplit (p query frag : string) : string :=
  p ++ (if query =s? "" then "" else "?" ++ query)
    ++ (if frag =s? "" then "" else "#" ++ frag).

(** The page [SimpleHTTPRequestHandler.list_directory] builds for the
    directory [p] with entries [names], requested as [reqpath]; it lists the
    entries in the order [os.listdir] returns them (the case-insensitive
    sort and the HTML escaping of names are left out). *)
Definition listing_page (e : henv) (p : ospath) (reqpath : string) (names : list string)
    : list Byte.byte :=
  let displaypath := unquote reqpath in
  let title := "Directory listing for " ++ displaypath in
  let item (name : string) :=
    let link := if os_isdir (files e) (os_join p name) then name ++ "/" else name in
    "<li><a href=" ++ q link ++ ">" ++ link ++ "</a></li>" in
  let r := app ["<!DOCTYPE HTML>"; "<html lang=" ++ q "en" ++ ">"; "<head>";
                "<meta charset=" ++ q "utf-8" ++ ">"; "<title>" ++ title ++ "</title>";
                "</head>"; "<body>"; "<h1>" ++ title ++ "</h1>"; "<hr>"; "<ul>"]
           (app (map item names)
                ["</ul>" ++ String "010" "<hr>" ++ String "010" "</body>"
                 ++ String "010" "</html>" ++ String "010" ""]) in
  list_byte_of_string (join (String "010" "") r).

(** [SimpleHTTPRequestHandler.list_directory] *)
Definition list_directory (e : henv) (p : ospath) : M (option (list Byte.byte)) :=
  match os_listdir (files e) p with
  | None => send_error e 404 (Some "No permission to list directory") ;; ret None
  | Some names =>
      s <- get ;;
      let encoded := listing_page e p (path s) names in
      send_response e 200 None ;;
      send_header "Content-type" "text/html; charset=utf-8" ;;
      send_header "Content-Length" (str_nat (List.length encoded)) ;;
      end_headers ;;
      ret (Some encoded)
  end.

(** The part of [send_head] after directory handling: a regular file. *)
Definition serve_file (e : henv) (p : ospath) : M (option (list Byte.byte)) :=
  let ctype := guess_type p in
  if trail p then send_error e 404 (Some "File not found") ;; ret None else
  match os_open (files e) p with
  | None => send_error e 404 (Some "File not found") ;; ret None
  | Some (content, mtime) =>
      if not_modified e mtime then
        send_response e 304 None ;; end_headers ;; ret None
      else
        send_response e 200 None ;;
        send_header "Content-type" ctype ;;
        send_header "Content-Length" (str_nat (List.length content)) ;;
        send_header "Last-Modified" (date_time_string mtime) ;;
        end_headers ;;
        ret (Some content)
  end.

Definition send_head (e : henv) : M (option (list Byte.byte)) :=
  s <- get ;;
  let p := translate_path (directory e) (path s) in
  if os_isdir (files e) p then
    let '(upath, query, frag) := urlsplit (path s) in
    if negb (ends_with "/" upath) then
      send_response e 301 None ;;
      send_header "Location" (urlunsplit (upath ++ "/") query frag) ;;
      send_header "Content-Length" "0" ;;
      end_headers ;;
      ret None
    else
      let i1 := os_join p "index.html" in
      let i2 := os_join p "index.htm" in
      if os_isfile (files e) i1 then serve_file e i1
      else if os_isfile (files e) i2 then serve_file e i2
      else list_directory e p
  else serve_file e p.

(** [do_GET] copies the file object after the headers; [do_HEAD] only
    closes it. *)
Definition do_GET (e : henv) : M unit :=
  f <- send_head e ;;
  match f with Some body => wfile_write [WBody body] | None => ret tt end.

Definition do_HEAD (e : henv) : M unit :=
  _ <- send_head e ;; ret tt.

(** [BaseHTTPRequestHandler.handle_one_request]; [hasattr(self, 'do_' +
    command)] holds for GET and HEAD only. *)
Definition handle_one_request (e : henv) : M unit :=
  let raw := raw_requestline (req e) in
  if (65536 <? Z.of_nat (String.length raw))%Z then
    set_request_version "" ;; set_command "" ;; send_error e 414 None
  else if raw =s? "" then set_close true
  else
    ok <- parse_request e ;;
    if negb ok then ret tt else
    s <- get ;;
    if command s =s? "GET" then do_GET e
    else if command s =s? "HEAD" then do_HEAD e
    else send_error e 501 (Some ("Unsupported method (" ++ repr (command s) ++ ")")).

(** [BaseHTTPRequestHandler.handle] runs [handle_one_request] while
    [close_connection] is false; it is set at the start of every
    [parse_request] and nothing under protocol_version "HTTP/1.0" clears it,
    so one connection carries one request. *)
Definition handle_state (e : henv) : hstate := snd (handle_one_request e init_hstate).

(** What one connection receives. *)
Definition response (e : henv) : list wire := wfile (handle_state e).

Definition CRLF := String "013" (String "010" "").

Definition env1 (raw : string) (hs : list (string * string)) (fs : fsys) : henv :=
  HEnv ["srv"] fs 784111777%Z (Request (raw ++ CRLF) hs).

Definition fs1 : fsys :=
  [(["srv"], Dir true);
   (["srv"; "sample.parquet"], File true [Byte.x50; Byte.x41; Byte.x52; Byte.x31] 100%Z);
   (["srv"; "etc"], Dir true);
   (["srv"; "etc"; "passwd"], File true [Byte.x78] 100%Z);
   (["etc"; "passwd"], File true [Byte.x72; Byte.x6f; Byte.x6f; Byte.x74] 100%Z)].

(** ** Shape of what a handler writes *)

Definition COOP := "Cross-Origin-Opener-Policy".
Definition COEP := "Cross-Origin-Embedder-Policy".

Definition isolation_tail : list wire :=
  [WHeader COOP "same-origin"; WHeader COEP "require-corp"; WEnd].

(** Header lines other than the two isolation headers. *)
Definition other_header (w : wire) : Prop :=
  exists k v, w = WHeader k v /\ k <> COOP /\ k <> COEP.

(** A status line, headers set by the static handler, the two isolation
    headers last, in this order, then the end of the header block and body. *)
Definition well_headed (ws : list wire) : Prop :=
  exists ver code msg hs bs,
    ws = WStatus ver code msg :: hs ++ isolation_tail ++ map WBody bs
    /\ Forall other_header hs.

Definition body_only (ws : list wire) : Prop := exists bs, ws = map WBody bs.

(** Executable counterparts. *)
Definition other_headerb (w : wire) : bool :=
  match w with
  | WHeader k _ => negb (k =s? COOP) && negb (k =s? COEP)
  | _ => false
  end.

Definition bodyb (w : wire) : bool := match w with WBody _ => true | _ => false end.

Definition tail_here (ws : list wire) : bool :=
  match ws with
  | WHeader k1 v1 :: WHeader k2 v2 :: WEnd :: rest =>
      (k1 =s? COOP) && (v1 =s? "same-origin") && (k2 =s? COEP)
      && (v2 =s? "require-corp") && forallb bodyb rest
  | _ => false
  end.

Fixpoint header_tailb (ws : list wire) : bool :=
  match ws with
  | [] => false
  | w :: rest => tail_here ws || (other_headerb w && header_tailb rest)
  end.

Definition well_headedb (ws : list wire) : bool :=
  match ws with WStatus _ _ _ :: rest => header_tailb rest | _ => false end.

(** What a response must look like given the version the handler has
    recorded for the request: HTTP/0.9 answers carry body bytes only. *)
Definition block_okb (ver : string) (blk : list wire) : bool :=
  if ver =s? "HTTP/0.9" then forallb bodyb blk else well_headedb blk.

(** * The script's [__main__] block (lines 12-20) *)

(** ** [int(s)] as [argparse] applies it for [type=int] *)

Fixpoint strip_left_ws (s : string) : string :=
  match s with
  | String c r => if is_ws c then strip_left_ws r else s
  | EmptyString => EmptyString
  end.

(** Digits with single underscores between them, as [int] accepts. *)
Fixpoint py_digits (acc : Z) (prev_us : bool) (s : string) : option Z :=
  match s with
  | EmptyString => if prev_us then None else Some acc
  | String c r =>
      if is_digit c then py_digits (acc * 10 + Z.of_N (N_of_ascii c - 48))%Z false r
      else if Ascii.eqb c "_" then (if prev_us then None else py_digits acc true r)
      else None
  end.

Definition py_int (s : string) : option Z :=
  let s := rstrip (strip_left_ws s) in
  let '(neg, body) :=
    match s with
    | String "-" r => (true, r)
    | String "+" r => (false, r)
    | _ => (false, s)
    end in
  match body with
  | String c _ =>
      if is_digit c then
        match py_digits 0%Z false body with
        | Some z => Some (if neg then (- z)%Z else z)
        | None => None
        end
      else None
  | EmptyString => None
  end.

(** ** [argparse.ArgumentParser] with [--port/-p] ([type=int], default
    8080), [--bind/-b] (default ['127.0.0.1']) and the automatic [-h]. *)

Record args := Args { port : Z; bind : string }.

Definition default_args := Args 8080 "127.0.0.1".

Inductive parse_outcome :=
| ParsedOk (a : args)
| ParseError (message : string)   (* [parser.error]: usage and message on stderr, exit 2 *)
| HelpExit.                       (* [-h]: help on stdout, exit 0 *)

Inductive opt := OPort | OBind | OHelp.

(** [_negative_number_matcher]: ['^-\d+$|^-\d*\.\d+$']. *)
Definition looks_negative (s : string) : bool :=
  match s with
  | String "-" r =>
      match split_on "." r with
      | [a] => isdigit a
      | [a; b] => all_digits a && isdigit b
      | _ => false
      end
  | _ => false
  end.

(** Which option a token names, with the value glued to it if any:
    [--port], [--port=V], unique prefixes such as [--po] (abbreviations are
    allowed by default), [-p], [-pV], [-p=V]; the same for [bind] and [help]. *)
Definition long_match (name body : string) : bool :=
  negb (body =s? "") && String.prefix body name.

Definition match_option (tok : string) : option (opt * option string) :=
  match tok with
  | String "-" (String "-" body) =>
      let key := before "=" body in
      let glued := after "=" body in
      if long_match "port" key then Some (OPort, glued)
      else if long_match "bind" key then Some (OBind, glued)
      else if long_match "help" key then
        match glued with None => Some (OHelp, None) | Some _ => None end
      else None
  | String "-" (String c rest) =>
      let o := if Ascii.eqb c "p" then Some OPort
               else if Ascii.eqb c "b" then Some OBind
               else if Ascii.eqb c "h" then Some OHelp else None in
      match o with
      | Some OHelp => match rest with EmptyString => Some (OHelp, None) | _ => None end
      | Some x =>
          match rest with
          | EmptyString => Some (x, None)
          | String "=" v => Some (x, Some v)
          | _ => Some (x, Some rest)
          end
      | None => None
      end
  | _ => None
  end.

(** A token that can be the value of an option: not an option string,
    unless it looks like a negative number. *)
Definition value_token (tok : string) : bool :=
  match tok with
  | String "-" _ => looks_negative tok
  | _ => true
  end.

Definition take_value (o : opt) (v : string) (a : args) : option args :=
  match o with
  | OPort => match py_int v with Some n => Some (Args n (bind a)) | None => None end
  | OBind => Some (Args (port a) v)
  | OHelp => Some a
  end.

Definition opt_name (o : opt) : string :=
  match o with OPort => "--port/-p" | OBind => "--bind/-b" | OHelp => "-h" end.

(** Left to right; [-h] exits as soon as it is reached, a bad value or a
    missing one is an error at once, leftover tokens are reported at the
    end as unrecognized arguments. *)
Fixpoint parse_loop (argv : list string) (a : args) (extras : list string)
    : parse_outcome :=
  match argv with
  | [] =>
      match extras with
      | [] => ParsedOk a
      | _ => ParseError ("unrecognized arguments: " ++ join " " (rev extras))
      end
  | tok :: rest =>
      if tok =s? "--" then
        match app (rev extras) rest with
        | [] => ParsedOk a
        | l => ParseError ("unrecognized arguments: " ++ join " " l)
        end
      else if value_token tok then parse_loop rest a (tok :: extras)
      else
      match match_option tok with
      | None => parse_loop rest a (tok :: extras)
      | Some (OHelp, _) => HelpExit
      | Some (o, Some v) =>
          match take_value o v a with
          | Some a' => parse_loop rest a' extras
          | None => ParseError ("argument " ++ opt_name o ++ ": invalid int value: " ++ repr v)
          end
      | Some (o, None) =>
          match rest with
          | v :: rest' =>
              if value_token v then
                match take_value o v a with
                | Some a' => parse_loop rest' a' extras
                | None => ParseError ("argument " ++ opt_name o ++ ": invalid int value: " ++ repr v)
                end
              else ParseError ("argument " ++ opt_name o ++ ": expected one argument")
          | [] => ParseError ("argument " ++ opt_name o ++ ": expected one argument")
          end
      end
  end.

Definition parse_args (argv : list string) : parse_outcome :=
  parse_loop argv default_args [].

(** ** The process and its world *)

Record world := World {
  cwd : list string;                       (* [os.getcwd()] *)
  fs : fsys;
  local_addrs : list string;               (* addresses of the host's interfaces *)
  privileged : bool;                       (* may bind ports below 1024 *)
  listeners : list (string * Z);           (* listening sockets already bound *)
  ephemeral : Z                            (* the port the kernel picks for port 0 *)
}.

(** Socket system calls, in the order the process makes them. *)
Inductive syscall :=
| SockCreate
| SockBind (host : string) (port : Z)
| SockListen
| SockClose.

Inductive exit_status :=
| Running                (* still serving *)
| Exited (code : Z)
| Signaled (signo : Z).  (* terminated by a signal *)

Definition SIGINT := 2%Z.

Record outcome := Outcome {
  out_stdout : list string;
  out_stderr : list string;
  out_syscalls : list syscall;
  out_listeners : list (string * Z);
  out_served : list (list wire);   (* what each accepted connection received *)
  out_status : exit_status
}.

(** Inputs arriving once the server listens. *)
Inductive event :=
| Connect (r : request) (t : Z)   (* a client connection; [t] is the time *)
| Interrupt.                      (* the operator's Ctrl-C: SIGINT *)

(** The errors [socket.bind] can raise here. *)
Inductive bind_error := EOverflow | EAddrNotAvail | EAccess | EAddrInUse.

Definition bind_error_message (b : bind_error) : string :=
  match b with
  | EOverflow => "OverflowError: bind(): port must be 0-65535."
  | EAddrNotAvail => "OSError: [Errno 99] Cannot assign requested address"
  | EAccess => "PermissionError: [Errno 13] Permission denied"
  | EAddrInUse => "OSError: [Errno 98] Address already in use"
  end.

Definition resolve_host (h : string) : string :=
  if h =s? "" then "0.0.0.0" else if h =s? "localhost" then "127.0.0.1" else h.

(** Linux refuses a second listener on a port when either address is the
    wildcard or both are the same. *)
Definition conflicts (h : string) (p : Z) (l : list (string * Z)) : bool :=
  existsb (fun hp => (snd hp =? p)%Z &&
                     ((fst hp =s? h) || (fst hp =s? "0.0.0.0") || (h =s? "0.0.0.0"))) l.

(** [socket.bind((host, port))]: the bound address, or the error. *)
Definition socket_bind (w : world) (host : string) (p : Z) : bind_error + (string * Z) :=
  if negb ((0 <=? p)%Z && (p <=? 65535)%Z) then inl EOverflow else
  let h := resolve_host host in
  if negb ((h =s? "0.0.0.0") || existsb (String.eqb h) (local_addrs w)) then inl EAddrNotAvail
  else if (1 <=? p)%Z && (p <? 1024)%Z && negb (privileged w) then inl EAccess
  else let p' := if (p =? 0)%Z then ephemeral w else p in
  if conflicts h p' (listeners w) then inl EAddrInUse
  else inr (h, p').

(** [httpd.serve_forever()]: [socketserver.TCPServer] handles each
    connection in the serving thread ([process_request] calls
    [finish_request], which runs the handler to its end), one at a time, in
    arrival order; an interrupt raises [KeyboardInterrupt] out of the loop.
    The handler of every connection gets [self.directory = os.getcwd()]. *)
Fixpoint serve_forever (w : world) (evs : list event) : list (list wire) * bool :=
  match evs with
  | [] => ([], false)
  | Connect r t :: rest =>
      let '(out, interrupted) := serve_forever w rest in
      (response (HEnv (cwd w) (fs w) t r) :: out, interrupted)
  | Interrupt :: _ => ([], true)
  end.

Definition traceback (last : string) : list string :=
  ["Traceback (most recent call last):"; last].

(** Lines 13-20.  An exception leaving the [with] block closes the socket
    ([TCPServer.__exit__] calls [server_close]); an exception the script does
    not catch ends the interpreter with a traceback and exit status 1, except
    [KeyboardInterrupt], after which the interpreter kills itself with SIGINT
    (Python 3.8 and later). *)
Definition main (w : world) (argv : list string) (evs : list event) : outcome :=
  match parse_args argv with
  | HelpExit =>
      Outcome ["usage: coep_server.py [-h] [--port PORT] [--bind BIND]"] [] []
              (listeners w) [] (Exited 0)
  | ParseError msg =>
      Outcome [] ["usage: coep_server.py [-h] [--port PORT] [--bind BIND]";
                  "coep_server.py: error: " ++ msg] [] (listeners w) [] (Exited 2)
  | ParsedOk a =>
      (* TCPServer.__init__: socket(), then server_bind and server_activate,
         with server_close and re-raise on failure *)
      match socket_bind w (bind a) (port a) with
      | inl err =>
          let calls := match err with
                       | EOverflow => [SockCreate; SockClose]
                       | _ => [SockCreate; SockBind (resolve_host (bind a)) (port a); SockClose]
                       end in
          Outcome [] (traceback (bind_error_message err)) calls (listeners w) [] (Exited 1)
      | inr hp =>
          let greeting := "Serving at http://" ++ bind a ++ ":" ++ str_Z (port a) in
          let '(served, interrupted) := serve_forever w evs in
          if interrupted then
            Outcome [greeting] (traceback "KeyboardInterrupt")
                    [SockCreate; SockBind (fst hp) (port a); SockListen; SockClose]
                    (listeners w) served (Signaled SIGINT)
          else
            Outcome [greeting] [] [SockCreate; SockBind (fst hp) (port a); SockListen]
                    (hp :: listeners w) served Running
      end
  end.

(** ** The accept loop as a transition system

    [BaseServer.serve_forever] accepts a connection ([get_request]) only from
    its own loop, and [process_request] runs the handler to completion
    before the loop resumes.  A handler is [active] between its start and
    its end. *)
Record server_state := SState {
  pending : list request;       (* connections waiting in the listen backlog *)
  active : list request;        (* handlers started and not yet finished *)
  finished : list request       (* handled, in order *)
}.

Inductive step : server_state -> server_state -> Prop :=
| step_accept c p f :
    (* _handle_request_noblock -> get_request, process_request starts *)
    step (SState (c :: p) [] f) (SState p [c] f)
| step_finish c p f :
    (* finish_request returns, then shutdown_request *)
    step (SState p [c] f) (SState p [] (f ++ [c])).

Inductive reachable (s0 : server_state) : server_state -> Prop :=
| reach_refl : reachable s0 s0
| reach_step s s' : reachable s0 s -> step s s' -> reachable s0 s'.

Definition w1 : world :=
  World ["srv"] fs1 ["127.0.0.1"] false [] 40000.

(** The words of the request line, as [parse_request] splits them. *)
Definition request_words (e : henv) : list string :=
  split_ws (rstrip_by is_crlf (raw_requestline (req e))).

(** A header line with field name [k]. *)
Definition header_named (k : string) (w : wire) : bool :=
  match w with WHeader k' _ => k' =s? k | _ => false end.

(** [p] lies under the directory [d]; the entries of [fs] under [d]. *)
Definition under (d p : list string) : bool := path_eqb (firstn (List.length d) p) d.

Definition restrict (d : list string) (fs : fsys) : fsys :=
  filter (fun en => under d (fst en)) fs.

(** The moves [step] allows from a state, enumerated. *)
Definition successors (s : server_state) : list server_state :=
  match s with
  | SState (c :: p) [] f => [SState p [c] f]
  | SState p [c] f => [SState p [] (f ++ [c])]
  | SState _ _ _ => []
  end.

Definition rq (target : string) : request :=
  Request ("GET " ++ target ++ " HTTP/1.0" ++ CRLF) [].

(** ** Emitting a response *)

(** The header buffer is empty and the request version is [v]. *)
Definition ready (v : string) (s : hstate) : Prop :=
  headers_buffer s = [] /\ request_version s = v.

(** [m] appends one response block fitting [v] to the socket and leaves the
    rest of the handler state as the emission found it. *)
Definition emits {A} (v : string) (m : M A) : Prop :=
  forall s, ready v s ->
    ready v (snd (m s)) /\ command (snd (m s)) = command s /\ path (snd (m s)) = path s /\
    exists blk, wfile (snd (m s)) = (wfile s ++ blk)%list /\ block_okb v blk = true.

(** * Proofs *)

(** ** Sanity checks of the embedding on concrete inputs *)

Example translate_traversal :
  translate_path ["srv"] "/../../etc/passwd" = OsPath ["srv"; "etc"; "passwd"] false.
Proof. reflexivity. Qed.

Example translate_encoded :
  translate_path ["srv"] "/a%2e%2e/%2E%2E/b/?x=1" = OsPath ["srv"; "b"] true.
Proof. reflexivity. Qed.

Example normpath_ex : normpath "//a/./b/../c/" = "//a/c".
Proof. reflexivity. Qed.

Example date_ex : date_time_string 784111777 = "Sun, 06 Nov 1994 08:49:37 GMT".
Proof. reflexivity. Qed.

Example parse_port_zero : parse_args ["-p"; "0"] = ParsedOk (Args 0 "127.0.0.1").
Proof. reflexivity. Qed.

Example parse_negative_port : parse_args ["--po"; "-5"] = ParsedOk (Args (-5) "127.0.0.1").
Proof. reflexivity. Qed.

Example parse_directory_flag :
  parse_args ["--directory"; "x"] = ParseError "unrecognized arguments: --directory x".
Proof. reflexivity. Qed.

(** ** Emitting a response *)

Ltac destr_one :=
  match goal with
  | |- context [if ?b then _ else _] =>
      lazymatch b with
      | true => fail
      | false => fail
      | _ => let E := fresh "E" in destruct b eqn:E
      end
  end.
Ltac norm := cbn -[error_has_body list_byte_of_string error_body str_nat date_time_string listing_page guess_type].
Ltac crunch E := repeat first [rewrite E | progress norm].
Ltac unfold_prims := unfold send_error, send_response, send_response_only, send_header, end_headers, base_end_headers,
      flush_headers.
Ltac close_emit E :=
  repeat split; try reflexivity;
  eexists; split;
  [ first [ rewrite <- ?app_assoc; reflexivity | symmetry; apply app_nil_r ]
  | unfold block_okb; rewrite ?E; cbn -[list_byte_of_string error_body str_nat date_time_string]; try reflexivity ].
Ltac emit_direct :=
  let E := fresh "Ev" in
  intros [ver cmd0 path0 buf0 wf0 cl0] [Hb Hv]; simpl in Hb, Hv; subst buf0;
  match type of Hv with _ = ?x => subst x end; unfold_prims;
  destruct (ver =s? "HTTP/0.9") eqn:E;
  [ apply String.eqb_eq in E; subst; repeat (norm; destr_one); norm; close_emit E
  | repeat (crunch E; destr_one); crunch E; close_emit E ].

Lemma send_error_emits e code msg v : emits v (send_error e code msg).
Proof.
  intros [ver cmd p buf wf cl] [Hb Hv]; simpl in Hb, Hv; subst.
  destruct (v =s? "HTTP/0.9") eqn:E.
  - apply String.eqb_eq in E; subst.
    unfold send_error.
    destruct (responses code) as [[sm lm]|]; unfold_prims; repeat (norm; destr_one); norm; close_emit E.
  - unfold send_error.
    destruct (responses code) as [[sm lm]|]; unfold_prims; repeat (crunch E; destr_one); crunch E; close_emit E.
Qed.

Lemma emits_ret {A B} v (m : M A) (x : B) : emits v m -> emits v (m ;; ret x).
Proof.
  intros H s Hs. specialize (H s Hs). cbn. destruct (m s) as [a s']. exact H.
Qed.

Lemma forallb_app_body l b : forallb bodyb l = true -> forallb bodyb (l ++ [WBody b])%list = true.
Proof. intros H. rewrite forallb_app, H. reflexivity. Qed.

Lemma header_tailb_app_body ws b :
  header_tailb ws = true -> header_tailb (ws ++ [WBody b])%list = true.
Proof.
  induction ws as [|w ws IH]; [discriminate|].
  cbn [header_tailb]. intros H. apply orb_true_iff in H. apply orb_true_iff.
  destruct H as [H|H].
  - left. destruct w as [| k1 v1 | |]; try discriminate.
    destruct ws as [|[| k2 v2 | |] [|[] rest]]; try discriminate.
    cbn in H |- *. apply andb_true_iff in H as [H1 H2].
    rewrite H1. apply forallb_app_body. exact H2.
  - right. apply andb_true_iff in H as [H1 H2]. rewrite H1. apply IH. exact H2.
Qed.

Lemma block_okb_app_body v blk b :
  block_okb v blk = true -> block_okb v (blk ++ [WBody b])%list = true.
Proof.
  unfold block_okb. destruct (v =s? "HTTP/0.9").
  - apply forallb_app_body.
  - destruct blk as [|[] rest]; try discriminate. apply header_tailb_app_body.
Qed.

Lemma emits_body v (m : M (option (list Byte.byte))) :
  emits v m ->
  emits v (f <- m ;; match f with Some body => wfile_write [WBody body] | None => ret tt end).
Proof.
  intros H s Hs. specialize (H s Hs). cbn. destruct (m s) as [[body|] s'] eqn:Em; cbn in H |- *.
  - destruct H as [[Hb Hv] [Hc [Hp [blk [Hw Hok]]]]].
    repeat split; auto. exists (blk ++ [WBody body])%list. split.
    + rewrite Hw, app_assoc. reflexivity.
    + apply block_okb_app_body. exact Hok.
  - exact H.
Qed.

Lemma serve_file_emits e p v : emits v (serve_file e p).
Proof.
  unfold serve_file. destruct (trail p).
  - apply emits_ret, send_error_emits.
  - destruct (os_open (files e) p) as [[content mtime]|].
    + destruct (not_modified e mtime); emit_direct.
    + apply emits_ret, send_error_emits.
Qed.

Lemma emits_at {A} v (m : M A) s :
  emits v m -> ready v s ->
  ready v (snd (m s)) /\ command (snd (m s)) = command s /\ path (snd (m s)) = path s /\
  exists blk, wfile (snd (m s)) = (wfile s ++ blk)%list /\ block_okb v blk = true.
Proof. intros H Hs. exact (H s Hs). Qed.

Lemma list_directory_emits e p v : emits v (list_directory e p).
Proof.
  unfold list_directory. destruct (os_listdir (files e) p) as [names|].
  - emit_direct.
  - apply emits_ret, send_error_emits.
Qed.

Lemma redirect_emits e loc v :
  emits v (send_response e 301 None ;; send_header "Location" loc ;;
           send_header "Content-Length" "0" ;; end_headers ;; ret (@None (list Byte.byte))).
Proof. emit_direct. Qed.

Lemma emits_get {A} v (k : hstate -> M A) :
  (forall s0, emits v (k s0)) -> emits v (x <- get ;; k x).
Proof. intros H s Hs. exact (H s s Hs). Qed.

Lemma send_head_emits e v : emits v (send_head e).
Proof.
  unfold send_head. apply emits_get. intros s0.
  destruct (os_isdir _ _).
  - destruct (urlsplit (path s0)) as [[upath query] frag].
    destruct (negb _); [apply redirect_emits|].
    destruct (os_isfile _ _); [apply serve_file_emits|].
    destruct (os_isfile _ _); [apply serve_file_emits|].
    apply list_directory_emits.
  - apply serve_file_emits.
Qed.

Lemma do_GET_emits e v : emits v (do_GET e).
Proof. apply emits_body, send_head_emits. Qed.

Lemma do_HEAD_emits e v : emits v (do_HEAD e).
Proof. apply emits_ret, send_head_emits. Qed.

(** ** Parsing the request line and the whole handler *)

Lemma send_error_at e code msg s : headers_buffer s = [] ->
  headers_buffer (snd (send_error e code msg s)) = [] /\
  request_version (snd (send_error e code msg s)) = request_version s /\
  exists blk, wfile (snd (send_error e code msg s)) = (wfile s ++ blk)%list /\
              block_okb (request_version s) blk = true.
Proof.
  intros Hb. destruct (send_error_emits e code msg (request_version s) s) as
    [[H1 H2] [_ [_ H3]]]; [split; auto|]. auto.
Qed.

Ltac use_send_error :=
  match goal with
  | |- context [send_error ?e ?c ?m ?s] =>
      let Es := fresh "Es" in let H := fresh "Hse" in
      pose proof (send_error_at e c m s eq_refl) as H;
      destruct (send_error e c m s) as [? ?] eqn:Es; cbn [snd] in H
  end.

Lemma parse_request_spec e s : headers_buffer s = [] ->
  let words := split_ws (rstrip_by is_crlf (raw_requestline (req e))) in
  let r := parse_request e s in
  headers_buffer (snd r) = [] /\
  (if fst r then wfile (snd r) = wfile s /\ command (snd r) = nth 0 words ""
   else exists blk, wfile (snd r) = (wfile s ++ blk)%list /\
                    block_okb (request_version (snd r)) blk = true) /\
  (forall m, 3 <= List.length words -> parse_version (last words "") = Some (1%N, m) ->
     request_version (snd r) = last words "").
Proof.
  intros Hb. unfold parse_request. cbv beta zeta.
  generalize (rstrip_by is_crlf (raw_requestline (req e))) as rl. intros rl.
  generalize (split_ws rl) as words. intros words.
  destruct s as [ver cmd p buf wf cl]; simpl in Hb; subst buf.
  destruct words as [|w1 [|w2 [|w3 rest]]].
  - cbn. repeat split; try reflexivity. exists []. rewrite app_nil_r. auto.
    intros m Hl. inversion Hl.
  - cbn -[send_error append repr]. use_send_error. cbn.
    destruct Hse as [H1 [H2 [blk [H3 H4]]]]. repeat split; auto.
    rewrite H2; eauto. intros m Hl. cbn in Hl. lia.
  - cbn -[send_error append repr].
    destruct (w1 =s? "GET") eqn:Eg; cbn -[send_error append repr].
    + destruct (prefix "//" w2); destruct (header_get _ _) as [c|];
        try destruct (lower c =s? "close"); cbn; repeat split; auto;
        intros m Hl; cbn in Hl; lia.
    + use_send_error. cbn.
      destruct Hse as [H1 [H2 [blk [H3 H4]]]]. repeat split; auto.
      rewrite H2; eauto. intros m Hl. cbn in Hl. lia.
  - cbn -[send_error append repr last].
    generalize (last (w1 :: w2 :: w3 :: rest) "") as lw. intros lw.
    destruct (parse_version lw) as [[maj mi]|] eqn:Hp.
    + destruct (2 <=? maj)%N eqn:Hm.
      * cbn -[send_error append repr]. use_send_error. cbn.
        destruct Hse as [H1 [H2 [blk [H3 H4]]]]. repeat split; auto.
        -- rewrite H2; eauto.
        -- intros m _ H. injection H as -> _. discriminate.
      * cbn -[send_error append repr]. destruct rest as [|r rs].
        -- cbn. destruct (prefix "//" w2); destruct (header_get _ _) as [c|];
             try destruct (lower c =s? "close"); cbn; repeat split; auto.
        -- cbn -[send_error append repr]. use_send_error. cbn.
           destruct Hse as [H1 [H2 [blk [H3 H4]]]]. repeat split; auto.
           rewrite H2; eauto.
    + cbn -[send_error append repr]. use_send_error. cbn.
      destruct Hse as [H1 [H2 [blk [H3 H4]]]]. repeat split; auto.
      * rewrite H2; eauto.
      * intros m _ H. discriminate.
Qed.

Lemma emits_state {A} v (m : M A) s :
  emits v m -> ready v s ->
  headers_buffer (snd (m s)) = [] /\ request_version (snd (m s)) = v /\
  exists blk, wfile (snd (m s)) = (wfile s ++ blk)%list /\ block_okb v blk = true.
Proof. intros H Hs. destruct (H s Hs) as [[H1 H2] [_ [_ H3]]]. auto. Qed.

Lemma handle_spec e :
  let words := split_ws (rstrip_by is_crlf (raw_requestline (req e))) in
  block_okb (request_version (handle_state e)) (response e) = true /\
  (forall m, 3 <= List.length words -> parse_version (last words "") = Some (1%N, m) ->
     request_version (handle_state e) = last words "" \/ request_version (handle_state e) = "").
Proof.
  cbv zeta. unfold response, handle_state, handle_one_request. cbv zeta.
  destruct (65536 <? Z.of_nat (String.length (raw_requestline (req e))))%Z eqn:El.
  - cbn -[send_error]. use_send_error. cbn. destruct Hse as [H1 [H2 [blk [H3 H4]]]].
    split.
    + rewrite H3, H2. exact H4.
    + intros m _ _. right. exact H2.
  - destruct (raw_requestline (req e) =s? "") eqn:Er.
    + apply String.eqb_eq in Er. rewrite Er. cbn. split; [reflexivity|].
      intros m Hl _. cbn in Hl. lia.
    + cbn -[parse_request do_GET do_HEAD send_error append repr].
      pose proof (parse_request_spec e init_hstate eq_refl) as Hp. cbv zeta in Hp.
      destruct (parse_request e init_hstate) as [ok s1] eqn:Ep. cbn [fst snd] in Hp.
      destruct Hp as [Hb [Hw Hv]].
      destruct ok; cbn -[do_GET do_HEAD send_error append repr].
      * destruct Hw as [Hw _].
        assert (Hr : ready (request_version s1) s1) by (split; auto).
        destruct (command s1 =s? "GET");
          [| destruct (command s1 =s? "HEAD")];
          [ pose proof (emits_state _ _ _ (do_GET_emits e (request_version s1)) Hr) as Hs
          | pose proof (emits_state _ _ _ (do_HEAD_emits e (request_version s1)) Hr) as Hs
          | pose proof (emits_state _ _ _ (send_error_emits e 501
              (Some ("Unsupported method (" ++ repr (command s1) ++ ")")) (request_version s1)) Hr) as Hs ];
          destruct Hs as [_ [Hs1 [blk [Hs2 Hs3]]]]; rewrite Hs1, Hs2, Hw; cbn; split; auto; intros m H1 H2; left; exact (Hv m H1 H2).
      * destruct Hw as [blk [Hw1 Hw2]]. rewrite Hw1. cbn. split; auto. intros m H1 H2; left; exact (Hv m H1 H2).
Qed.

(** ** Shape of the response *)

Lemma forallb_bodyb_map ws : forallb bodyb ws = true -> exists bs, ws = map WBody bs.
Proof.
  induction ws as [|w ws IH]; intros H.
  - exists []. reflexivity.
  - cbn in H. apply andb_prop in H as [Hw Hr]. destruct (IH Hr) as [bs ->].
    destruct w; try discriminate. exists (bytes :: bs). reflexivity.
Qed.

Lemma header_tailb_sound ws : header_tailb ws = true ->
  exists hs bs, ws = (hs ++ isolation_tail ++ map WBody bs)%list /\ Forall other_header hs.
Proof.
  induction ws as [|w ws IH]; intros H; [discriminate|].
  cbn [header_tailb] in H. apply orb_prop in H as [H|H].
  - destruct w as [| k1 v1 | |]; try discriminate.
    destruct ws as [|[| k2 v2 | |] [|[]]]; try discriminate. cbn in H.
    repeat match goal with H : _ && _ = true |- _ => apply andb_prop in H as [? ?] end.
    repeat match goal with H : (_ =s? _) = true |- _ => apply String.eqb_eq in H; subst end.
    match goal with H : forallb bodyb _ = true |- _ => destruct (forallb_bodyb_map _ H) as [bs ->] end.
    exists [], bs. split; [reflexivity | constructor].
  - apply andb_prop in H as [Hw Hr]. destruct (IH Hr) as [hs [bs [-> Hhs]]].
    exists (w :: hs), bs. split; [reflexivity|]. constructor; [|exact Hhs].
    destruct w as [| k v | |]; try discriminate. cbn in Hw.
    apply andb_prop in Hw as [H1 H2]. apply negb_true_iff, String.eqb_neq in H1, H2.
    exists k, v. auto.
Qed.

Lemma well_headedb_sound ws : well_headedb ws = true -> well_headed ws.
Proof.
  destruct ws as [|[ver code msg| | |] rest]; try discriminate. cbn. intros H.
  destruct (header_tailb_sound rest H) as [hs [bs [-> Hhs]]].
  exists ver, code, msg, hs, bs. auto.
Qed.

Lemma handle_well_headed e m :
  3 <= List.length (request_words e) ->
  parse_version (last (request_words e) "") = Some (1%N, m) ->
  well_headed (response e).
Proof.
  intros Hl Hp. destruct (handle_spec e) as [Hok Hv].
  change (split_ws (rstrip_by is_crlf (raw_requestline (req e)))) with (request_words e) in Hok, Hv.
  apply well_headedb_sound. unfold block_okb in Hok.
  destruct (Hv m Hl Hp) as [Hr|Hr]; rewrite Hr in Hok.
  - destruct (last (request_words e) "" =s? "HTTP/0.9") eqn:E; [|exact Hok].
    apply String.eqb_eq in E. rewrite E in Hp. discriminate.
  - exact Hok.
Qed.


(** ** C1 and C10 *)







(** ** The served root confines what a response reads *)

Lemma path_eqb_eq p q : path_eqb p q = true <-> p = q.
Proof.
  revert q; induction p as [|x p IH]; intros [|y q]; cbn; split; intros H;
    try discriminate; try reflexivity.
  - apply andb_prop in H as [H1 H2]. apply String.eqb_eq in H1. apply IH in H2. congruence.
  - injection H as -> ->. apply andb_true_intro. split; [apply String.eqb_refl | apply IH; reflexivity].
Qed.

Lemma under_iff d p : under d p = true <-> firstn (List.length d) p = d.
Proof. apply path_eqb_eq. Qed.

Lemma under_app d w : under d (d ++ w) = true.
Proof. apply under_iff. rewrite firstn_app, firstn_all, Nat.sub_diag. apply app_nil_r. Qed.

Lemma under_length d p : under d p = true -> List.length d <= List.length p.
Proof.
  intros H. apply under_iff in H. rewrite <- H at 1. rewrite length_firstn. lia.
Qed.

Lemma under_snoc d p n : under d p = true -> under d (p ++ [n]) = true.
Proof.
  intros H. pose proof (under_length _ _ H) as Hl. apply under_iff in H. apply under_iff.
  rewrite firstn_app. replace (List.length d - List.length p) with 0 by lia. cbn.
  rewrite app_nil_r. exact H.
Qed.

Lemma translate_path_under d path : under d (comps (translate_path d path)) = true.
Proof. apply under_app. Qed.

Lemma os_join_under d p n : under d (comps p) = true -> under d (comps (os_join p n)) = true.
Proof. apply under_snoc. Qed.

Lemma find_filter {A} (f g : A -> bool) l :
  (forall x, f x = true -> g x = true) -> find f (filter g l) = find f l.
Proof.
  intros H. induction l as [|x l IH]; [reflexivity|]. cbn.
  destruct (g x) eqn:Eg, (f x) eqn:Ef; cbn; rewrite ?Ef; auto.
  rewrite (H x Ef) in Eg. discriminate.
Qed.

Lemma fs_lookup_restrict d fs p : under d p = true -> fs_lookup (restrict d fs) p = fs_lookup fs p.
Proof.
  intros Hp. unfold fs_lookup, restrict. rewrite find_filter; [reflexivity|].
  intros [q en] H. cbn in *. apply path_eqb_eq in H. subst. exact Hp.
Qed.

Lemma os_isdir_restrict d fs p : under d (comps p) = true -> os_isdir (restrict d fs) p = os_isdir fs p.
Proof. intros H. unfold os_isdir. rewrite fs_lookup_restrict; auto. Qed.

Lemma os_isfile_restrict d fs p : under d (comps p) = true -> os_isfile (restrict d fs) p = os_isfile fs p.
Proof. intros H. unfold os_isfile. rewrite fs_lookup_restrict; auto. Qed.

Lemma os_open_restrict d fs p : under d (comps p) = true -> os_open (restrict d fs) p = os_open fs p.
Proof. intros H. unfold os_open. rewrite fs_lookup_restrict; auto. Qed.

Lemma flat_map_filter {A B} (h : A -> list B) (g : A -> bool) l :
  (forall x, g x = false -> h x = []) -> flat_map h (filter g l) = flat_map h l.
Proof.
  intros H. induction l as [|x l IH]; [reflexivity|]. cbn.
  destruct (g x) eqn:Eg; cbn; rewrite IH; [reflexivity|]. rewrite (H x Eg). reflexivity.
Qed.

Lemma os_listdir_restrict d fs p : under d (comps p) = true -> os_listdir (restrict d fs) p = os_listdir fs p.
Proof.
  intros H. unfold os_listdir. rewrite fs_lookup_restrict by exact H.
  destruct (fs_lookup fs (comps p)) as [[|[]]|]; try reflexivity.
  unfold restrict. rewrite flat_map_filter; [reflexivity|].
  intros [q en] Hg. cbn in Hg |- *.
  destruct (Nat.eqb (List.length q) (S (List.length (comps p))) && path_eqb (firstn (List.length (comps p)) q) (comps p)) eqn:E;
    [|reflexivity].
  exfalso. apply andb_prop in E as [_ E]. apply path_eqb_eq in E.
  pose proof (under_length _ _ H) as Hl. apply under_iff in H.
  assert (Hq : firstn (List.length d) q = d).
  { transitivity (firstn (List.length d) (comps p)); [|exact H].
    rewrite <- E. rewrite firstn_firstn. f_equal. lia. }
  apply under_iff in Hq. congruence.
Qed.

Section Restrict.
Variables (d : list string) (fs : fsys) (t : Z) (r : request).

Lemma serve_file_restrict p : under d (comps p) = true ->
  serve_file (HEnv d (restrict d fs) t r) p = serve_file (HEnv d fs t r) p.
Proof. intros H. unfold serve_file. cbn [files]. rewrite os_open_restrict by exact H. reflexivity. Qed.

Lemma listing_page_restrict p rp names : under d (comps p) = true ->
  listing_page (HEnv d (restrict d fs) t r) p rp names = listing_page (HEnv d fs t r) p rp names.
Proof.
  intros H. unfold listing_page. cbv zeta. cbn [files].
  do 4 f_equal. apply map_ext. intros n. rewrite os_isdir_restrict by (apply os_join_under; exact H).
  reflexivity.
Qed.

Lemma list_directory_restrict p s : under d (comps p) = true ->
  list_directory (HEnv d (restrict d fs) t r) p s = list_directory (HEnv d fs t r) p s.
Proof.
  intros H. unfold list_directory. cbn [files]. rewrite os_listdir_restrict by exact H.
  destruct (os_listdir fs p); [|reflexivity].
  cbn [mbind get]. rewrite listing_page_restrict by exact H. reflexivity.
Qed.

Lemma send_head_restrict s :
  send_head (HEnv d (restrict d fs) t r) s = send_head (HEnv d fs t r) s.
Proof.
  unfold send_head. cbn [mbind get directory files].
  pose proof (translate_path_under d (path s)) as H.
  rewrite os_isdir_restrict by exact H.
  destruct (os_isdir fs _); [|rewrite serve_file_restrict by exact H; reflexivity].
  destruct (urlsplit (path s)) as [[upath query] frag].
  destruct (negb _); [reflexivity|].
  rewrite !os_isfile_restrict by (apply os_join_under; exact H).
  destruct (os_isfile fs _); [rewrite serve_file_restrict by (apply os_join_under; exact H); reflexivity|].
  destruct (os_isfile fs _); [rewrite serve_file_restrict by (apply os_join_under; exact H); reflexivity|].
  apply list_directory_restrict, H.
Qed.

Lemma handle_one_request_restrict s :
  handle_one_request (HEnv d (restrict d fs) t r) s = handle_one_request (HEnv d fs t r) s.
Proof.
  unfold handle_one_request. cbn [req].
  destruct (65536 <? _)%Z; [reflexivity|]. destruct (_ =s? ""); [reflexivity|].
  change (parse_request (HEnv d (restrict d fs) t r)) with (parse_request (HEnv d fs t r)).
  cbn [mbind]. destruct (parse_request (HEnv d fs t r) s) as [[|] s1]; cbn [negb]; [|reflexivity].
  cbn [mbind get].
  destruct (command s1 =s? "GET"); [|destruct (command s1 =s? "HEAD")].
  - unfold do_GET. cbn [mbind]. rewrite send_head_restrict. reflexivity.
  - unfold do_HEAD. cbn [mbind]. rewrite send_head_restrict. reflexivity.
  - reflexivity.
Qed.

Lemma response_restrict :
  response (HEnv d (restrict d fs) t r) = response (HEnv d fs t r).
Proof. unfold response, handle_state. rewrite handle_one_request_restrict. reflexivity. Qed.

End Restrict.




(** ** Requests with an HTTP/1.x request line *)

Lemma parse_version_not_09 v m : parse_version v = Some (1%N, m) -> (v =s? "HTTP/0.9") = false.
Proof.
  intros H. destruct (v =s? "HTTP/0.9") eqn:E; [|reflexivity].
  apply String.eqb_eq in E. subst. discriminate.
Qed.

Lemma parse_request_ok e s cmd target ver m :
  request_words e = [cmd; target; ver] -> parse_version ver = Some (1%N, m) ->
  starts_with "//" target = false ->
  exists cl, parse_request e s = (true, HState ver cmd target (headers_buffer s) (wfile s) cl).
Proof.
  intros Hw Hp Hs. unfold request_words in Hw. unfold parse_request. cbv beta zeta.
  rewrite Hw. destruct s as [v0 c0 p0 b0 w0 cl0].
  unfold starts_with in Hs.
  cbn -[send_error append repr parse_version]. rewrite Hp. cbn -[send_error append repr].
  rewrite Hs. cbn -[send_error append repr].
  destruct (header_get _ _) as [c|]; [destruct (lower c =s? "close")|]; cbn; eexists; reflexivity.
Qed.

Lemma handle_parsed e cmd target ver m :
  request_words e = [cmd; target; ver] -> parse_version ver = Some (1%N, m) ->
  starts_with "//" target = false ->
  (Z.of_nat (String.length (raw_requestline (req e))) <= 65536)%Z ->
  exists cl, handle_state e =
    snd ((if cmd =s? "GET" then do_GET e
          else if cmd =s? "HEAD" then do_HEAD e
          else send_error e 501 (Some ("Unsupported method (" ++ repr cmd ++ ")")))
         (HState ver cmd target [] [] cl)).
Proof.
  intros Hw Hp Hs Hl. destruct (parse_request_ok e init_hstate cmd target ver m Hw Hp Hs) as [cl Hpr].
  exists cl. unfold handle_state, handle_one_request.
  replace (65536 <? Z.of_nat (String.length (raw_requestline (req e))))%Z with false
    by (symmetry; apply Z.ltb_ge; exact Hl).
  destruct (raw_requestline (req e) =s? "") eqn:Er.
  - apply String.eqb_eq in Er. unfold request_words in Hw. rewrite Er in Hw. discriminate.
  - cbn -[parse_request do_GET do_HEAD send_error append repr]. rewrite Hpr. reflexivity.
Qed.

Ltac other_headers :=
  repeat (apply Forall_cons; [eexists _, _; split; [reflexivity | split; discriminate] |]);
  apply Forall_nil.




Lemma serve_forever_connect w r t evs :
  serve_forever w (Connect r t :: evs) =
  (response (HEnv (cwd w) (fs w) t r) :: fst (serve_forever w evs), snd (serve_forever w evs)).
Proof. cbn. destruct (serve_forever w evs). reflexivity. Qed.

Lemma well_headed_status v c msg rest :
  well_headedb (WStatus v c msg :: rest) = true ->
  exists hs bs, (WStatus v c msg :: rest = WStatus v c msg :: hs ++ isolation_tail ++ map WBody bs)%list /\
    Forall other_header hs.
Proof.
  intros H. destruct (header_tailb_sound rest H) as [hs [bs [-> Hhs]]]. exists hs, bs. auto.
Qed.

Lemma missing_path_404 e m cmd target ver :
  request_words e = [cmd; target; ver] ->
  cmd = "GET" \/ cmd = "HEAD" ->
  parse_version ver = Some (1%N, m) ->
  (Z.of_nat (String.length (raw_requestline (req e))) <= 65536)%Z ->
  starts_with "//" target = false ->
  fs_lookup (files e) (comps (translate_path (directory e) target)) = None ->
  exists hs bs, response e =
    (WStatus "HTTP/1.0" 404 "File not found" :: hs ++ isolation_tail ++ map WBody bs)%list /\
    Forall other_header hs.
Proof.
  intros Hw Hc Hp Hl Hs Hlook.
  destruct (handle_parsed e _ _ _ m Hw Hp Hs Hl) as [cl Hh].
  pose proof (parse_version_not_09 _ _ Hp) as E.
  unfold response. rewrite Hh.
  destruct (translate_path (directory e) target) as [p tr] eqn:Htp.
  assert (Hd : os_isdir (files e) (OsPath p tr) = false)
    by (unfold os_isdir; cbn [comps]; cbn [comps] in Hlook; rewrite Hlook; reflexivity).
  assert (Ho : os_open (files e) (OsPath p tr) = None)
    by (unfold os_open; cbn [comps]; cbn [comps] in Hlook; rewrite Hlook; reflexivity).
  destruct Hc as [-> | ->]; cbn [String.eqb Ascii.eqb Bool.eqb];
    [unfold do_GET | unfold do_HEAD]; unfold send_head; cbn [mbind get path];
    rewrite Htp, Hd; unfold serve_file; cbn [trail]; rewrite Ho; destruct tr;
    unfold_prims; repeat (crunch E; destr_one); crunch E;
    apply well_headed_status; reflexivity.
Qed.




(** ** The serving loop and the process *)

Lemma step_successors s s' : step s s' <-> In s' (successors s).
Proof.
  split.
  - intros []; cbn; auto. destruct p; cbn; auto.
  - destruct s as [[|c p] [|a [|b act]] f]; cbn; intros H; try contradiction;
      repeat (destruct H as [<-|H]; [constructor|]); contradiction.
Qed.

(** C3 (amended): the accept loop runs one handler at a time.  From a
    backlog [conns], at most one handler is ever active, and the
    connections are handled to completion in arrival order: the finished
    ones, the active one and the waiting ones always make up [conns]. *)
Theorem C3_one_handler_at_a_time conns s :
  reachable (SState conns [] []) s ->
  List.length (active s) <= 1 /\ (finished s ++ active s ++ pending s)%list = conns.
Proof.
  induction 1 as [|s s' _ [IH1 IH2] Hst]; [cbn; auto|].
  destruct Hst; cbn in *; split; auto.
  rewrite <- IH2, <- app_assoc. reflexivity.
Qed.

Lemma C3_one_handler_at_a_time_witness :
  List.length (active (SState [rq "/b"] [rq "/a"] [])) <= 1 /\
  (finished (SState [rq "/b"] [rq "/a"] []) ++ active (SState [rq "/b"] [rq "/a"] [])
     ++ pending (SState [rq "/b"] [rq "/a"] []))%list = [rq "/a"; rq "/b"].
Proof.
  apply C3_one_handler_at_a_time.
  eapply reach_step; [apply reach_refl | apply step_accept].
Defined.

(** C3 (counterexample): while the handler of one connection runs, the only
    move is to finish it; the next connection is not accepted before. *)
Example C3_no_second_handler_while_one_runs :
  successors (SState [rq "/b"] [rq "/a"] []) = [SState [rq "/b"] [] [rq "/a"]].
Proof. reflexivity. Qed.

Lemma parse_port_arg s :
  parse_args ["--port"; s] =
  if value_token s then
    match py_int s with
    | Some n => ParsedOk (Args n "127.0.0.1")
    | None => ParseError ("argument --port/-p: invalid int value: " ++ repr s)
    end
  else ParseError "argument --port/-p: expected one argument".
Proof.
  unfold parse_args. cbn -[value_token py_int append repr].
  destruct (value_token s); [|reflexivity]. cbn -[py_int append repr].
  destruct (py_int s); reflexivity.
Qed.

Lemma serve_forever_interrupt w evs : In Interrupt evs -> snd (serve_forever w evs) = true.
Proof.
  induction evs as [|[r t|] evs IH]; cbn; intros H; [contradiction| |reflexivity].
  destruct H as [H|H]; [discriminate|]. specialize (IH H).
  destruct (serve_forever w evs). exact IH.
Qed.

Lemma serve_forever_served w evs ws :
  In ws (fst (serve_forever w evs)) ->
  exists r t, In (Connect r t) evs /\ ws = response (HEnv (cwd w) (fs w) t r).
Proof.
  induction evs as [|[r t|] evs IH]; cbn; intros H; [contradiction| |contradiction].
  destruct (serve_forever w evs) as [out b] eqn:E. cbn in H, IH.
  destruct H as [<-|H].
  - exists r, t. auto.
  - destruct (IH H) as [r' [t' [H1 H2]]]. exists r', t'. auto.
Qed.

Lemma serve_forever_flag w w' evs : snd (serve_forever w evs) = snd (serve_forever w' evs).
Proof.
  induction evs as [|[r t|] evs IH]; cbn; [reflexivity| |reflexivity].
  destruct (serve_forever w evs), (serve_forever w' evs). exact IH.
Qed.










